(** * egui_custom_frame: a shallow embedding of [CustomFrame] (src/src/lib.rs)

    Coordinates are modelled as exact rationals [Q]: the frame only adds,
    subtracts and compares f32 values, and the embedding keeps every
    comparison and every operation of the source, without f32 rounding.
    The sums the source computes in f32 (such as those of [Rect::translate])
    may round there; the caption statement is therefore made for any
    rectangle the translation may yield, and [is_f32] below names the
    finite f32 values.
    The host toolkit (egui) enters through a [Context] record: the
    maximize flag, the theme fill, the panel's clip rectangle, the pointer
    interaction position and the [Response] the host reports for each
    interactive region id.  Everything [show] does to the host (showing the
    panel, registering regions, setting the cursor, sending viewport
    commands) is written to an effect log by a small writer monad. *)

From Stdlib Require Import QArith Qminmax List String Bool Lia Lqa.
Import ListNotations.
Open Scope Q_scope.

(** ** emath / epaint values used by the frame *)
Module Egui.

(** [f32::MAX] and [f32::MIN] *)
Definition f32_MAX : Q := Qmake 340282346638528859811704183484516925440 1.
Definition f32_MIN : Q := - f32_MAX.

(** [f32::max] and [f32::min] on non-NaN values *)
Definition f32_max (a b : Q) : Q := if Qle_bool a b then b else a.
Definition f32_min (a b : Q) : Q := if Qle_bool a b then a else b.

(** strict [<] on f32 *)
Definition f32_lt (a b : Q) : bool := negb (Qle_bool b a).

Record Pos2 := mkPos2 { x : Q; y : Q }.
Record Vec2 := mkVec2 { vx : Q; vy : Q }.

Definition Pos2_ZERO : Pos2 := mkPos2 0 0.
Definition Vec2_ZERO : Vec2 := mkVec2 0 0.
Definition Vec2_splat (v : Q) : Vec2 := mkVec2 v v.

Definition pos_add (p : Pos2) (v : Vec2) : Pos2 := mkPos2 (x p + vx v) (y p + vy v).
Definition pos_sub (p : Pos2) (v : Vec2) : Pos2 := mkPos2 (x p - vx v) (y p - vy v).
(** [Pos2::max] and [Pos2::min]: component-wise *)
Definition pos_max (p q : Pos2) : Pos2 := mkPos2 (f32_max (x p) (x q)) (f32_max (y p) (y q)).
Definition pos_min (p q : Pos2) : Pos2 := mkPos2 (f32_min (x p) (x q)) (f32_min (y p) (y q)).

Record Rect := mkRect { min : Pos2; max : Pos2 }.

Definition from_min_max (mn mx : Pos2) : Rect := mkRect mn mx.
Definition from_min_size (mn : Pos2) (size : Vec2) : Rect := mkRect mn (pos_add mn size).

Definition left (r : Rect) : Q := x (min r).
Definition right (r : Rect) : Q := x (max r).
Definition top (r : Rect) : Q := y (min r).
Definition bottom (r : Rect) : Q := y (max r).
Definition width (r : Rect) : Q := x (max r) - x (min r).
Definition height (r : Rect) : Q := y (max r) - y (min r).
Definition size (r : Rect) : Vec2 := mkVec2 (width r) (height r).

(** [Rect::contains]: inclusive on all four sides *)
Definition contains (r : Rect) (p : Pos2) : bool :=
  Qle_bool (x (min r)) (x p) && Qle_bool (x p) (x (max r)) &&
  Qle_bool (y (min r)) (y p) && Qle_bool (y p) (y (max r)).

Definition shrink2 (r : Rect) (amnt : Vec2) : Rect :=
  from_min_max (pos_add (min r) amnt) (pos_sub (max r) amnt).
Definition shrink (r : Rect) (amnt : Q) : Rect := shrink2 r (Vec2_splat amnt).

(** [Rect::translate]: [from_min_size(min + amnt, size())]; exact here,
    where emath rounds each f32 sum *)
Definition translate (r : Rect) (amnt : Vec2) : Rect :=
  from_min_size (pos_add (min r) amnt) (size r).

Definition intersect (r other : Rect) : Rect :=
  mkRect (pos_max (min r) (min other)) (pos_min (max r) (max other)).

Record Margin := mkMargin { m_left : Q; m_right : Q; m_top : Q; m_bottom : Q }.

Definition Margin_same (v : Q) : Margin := mkMargin v v v v.
Definition left_top (m : Margin) : Vec2 := mkVec2 (m_left m) (m_top m).
Definition right_bottom (m : Margin) : Vec2 := mkVec2 (m_right m) (m_bottom m).

(** [impl Sub<Margin> for Rect]: shrink a rectangle by a margin *)
Definition rect_sub_margin (r : Rect) (m : Margin) : Rect :=
  from_min_max (pos_add (min r) (left_top m)) (pos_sub (max r) (right_bottom m)).

Record Rounding := mkRounding { nw : Q; ne : Q; sw : Q; se : Q }.

Definition Rounding_same (v : Q) : Rounding := mkRounding v v v v.
Definition Rounding_ZERO : Rounding := Rounding_same 0.

(** [Color32] as its four premultiplied bytes *)
Record Color32 := mkColor32 { c_r : Z; c_g : Z; c_b : Z; c_a : Z }.

Definition Color32_TRANSPARENT : Color32 := mkColor32 0 0 0 0.
Definition Color32_from_black_alpha (a : Z) : Color32 := mkColor32 0 0 0 a.

Record Shadow := mkShadow { offset : Vec2; blur : Q; spread : Q; s_color : Color32 }.

Definition Shadow_NONE : Shadow := mkShadow Vec2_ZERO 0 0 Color32_TRANSPARENT.

Record Stroke := mkStroke { s_width : Q; stroke_color : Color32 }.

Definition Stroke_NONE : Stroke := mkStroke 0 Color32_TRANSPARENT.

(** [egui::Frame]: the six fields it has *)
Record Frame := mkFrame {
  f_inner_margin : Margin;
  f_outer_margin : Margin;
  f_rounding : Rounding;
  f_shadow : Shadow;
  f_fill : Color32;
  f_stroke : Stroke
}.

Record Sense := mkSense { click : bool; drag : bool }.

Definition Sense_drag : Sense := mkSense false true.
Definition Sense_click_and_drag : Sense := mkSense true true.

Inductive ResizeDirection :=
  North | South | East | West | NorthEast | SouthEast | NorthWest | SouthWest.

Inductive CursorIcon :=
  ResizeNorth | ResizeSouth | ResizeEast | ResizeWest
| ResizeNorthEast | ResizeSouthEast | ResizeNorthWest | ResizeSouthWest.

Inductive ViewportCommand :=
| BeginResize (d : ResizeDirection)
| StartDrag
| Maximized (b : bool).

(** What the host reports for a region registered with [ui.interact] *)
Record Response := mkResponse { drag_started : bool; double_clicked : bool }.

(** The host state [show] reads during one pass *)
Record Context := mkContext {
  viewport_maximized : option bool;   (* i.viewport().maximized *)
  panel_fill : Color32;               (* ctx.style().visuals.panel_fill *)
  clip_rect : Rect;                   (* ui.clip_rect() inside the panel *)
  interact_pos : option Pos2;         (* i.pointer.interact_pos() *)
  responses : string -> Response      (* result of ui.interact per Id *)
}.

Record Ui := mkUi { ui_clip_rect : Rect }.

(** Everything a pass asks of the host, in order *)
Inductive Effect :=
| ShowCentralPanel (f : Frame)
| Interact (r : Rect) (id : string) (s : Sense)
| SetCursorIcon (c : CursorIcon)
| SendViewportCmd (c : ViewportCommand).

End Egui.
Import Egui.

(** ** A writer monad over the effect log *)
Module EffectLog.

Definition M (A : Type) : Type := list Effect -> A * list Effect.

Definition ret {A} (a : A) : M A := fun log => (a, log).
Definition bind {A B} (m : M A) (k : A -> M B) : M B :=
  fun log => let (a, log') := m log in k a log'.
Definition emit (e : Effect) : M unit := fun log => (tt, log ++ [e]).
Definition run {A} (m : M A) : A * list Effect := m [].

End EffectLog.
Import EffectLog.

Notation "x <- c1 ;; c2" := (bind c1 (fun x => c2))
  (at level 61, c1 at next level, right associativity).
Notation "c1 ;; c2" := (bind c1 (fun _ => c2))
  (at level 61, right associativity).

(** ** The host calls *)
Definition unwrap_or {A} (o : option A) (d : A) : A :=
  match o with Some a => a | None => d end.

Definition ui_interact (ctx : Context) (r : Rect) (id : string) (s : Sense) : M Response :=
  emit (Interact r id s) ;; ret (responses ctx id).

Definition set_cursor_icon (c : CursorIcon) : M unit := emit (SetCursorIcon c).

Definition send_viewport_cmd (c : ViewportCommand) : M unit := emit (SendViewportCmd c).

(** [CentralPanel::default().frame(f).show(ctx, body)] *)
Definition central_panel_show {R} (f : Frame) (ctx : Context) (body : Ui -> M R) : M R :=
  emit (ShowCentralPanel f) ;; body (mkUi (clip_rect ctx)).

(** ** [pub struct CustomFrame] *)
Module CF.

Record CustomFrame := mkCustomFrame {
  sizebox : Margin;        (* the size of the resizing frame *)
  caption : Rect;          (* the caption area *)
  inner_margin : Margin;   (* the inner margin *)
  rounding : Rounding;     (* the rounding radius *)
  shadow : Shadow          (* the shadow attributes *)
}.

End CF.
Import CF.

(** The builder methods of [impl CustomFrame]: [fn sizebox(mut self, ..)]
    and so on; each replaces one field and returns [self]. *)
Module Builder.

Definition sizebox (self : CustomFrame) (sizebox : Margin) : CustomFrame :=
  mkCustomFrame sizebox (caption self) (inner_margin self) (rounding self) (shadow self).

Definition caption (self : CustomFrame) (caption : Rect) : CustomFrame :=
  mkCustomFrame (CF.sizebox self) caption (inner_margin self) (rounding self)
    (shadow self).

Definition rounding (self : CustomFrame) (rounding : Rounding) : CustomFrame :=
  mkCustomFrame (CF.sizebox self) (CF.caption self) (inner_margin self)
    rounding (shadow self).

Definition shadow (self : CustomFrame) (shadow : Shadow) : CustomFrame :=
  mkCustomFrame (CF.sizebox self) (CF.caption self) (inner_margin self)
    (CF.rounding self) shadow.

End Builder.

(** The builder methods [impl CustomFrame] declares, as a closed set:
    one per method, carrying its argument. *)
Inductive BuilderMethod :=
| BSizebox (m : Margin)
| BCaption (r : Rect)
| BRounding (r : Rounding)
| BShadow (s : Shadow).

Definition apply_builder (self : CustomFrame) (b : BuilderMethod) : CustomFrame :=
  match b with
  | BSizebox m => Builder.sizebox self m
  | BCaption r => Builder.caption self r
  | BRounding r => Builder.rounding self r
  | BShadow s => Builder.shadow self s
  end.

(** [impl Default for CustomFrame] *)
Definition CustomFrame_default : CustomFrame :=
  {| sizebox := Margin_same 4;
     caption := from_min_max (mkPos2 4 4) (mkPos2 f32_MAX 44);
     inner_margin := Margin_same 10;
     rounding := Rounding_same 10;
     shadow := {| offset := Vec2_ZERO; blur := 18; spread := 2;
                  s_color := Color32_from_black_alpha 32 |} |}.

(** ** [CustomFrame::show] *)

(** One branch of "produce resizing": the cursor icon, then the command on a
    drag start. *)
Definition resize_to (icon : CursorIcon) (dir : ResizeDirection) (drag : bool) : M unit :=
  set_cursor_icon icon ;;
  (if drag then send_viewport_cmd (BeginResize dir) else ret tt).

(** "produce resizing" (lib.rs lines 139-205) *)
Definition produce_resizing (sizebox_response : option Response) (pos : Pos2)
    (sizebox_inner : Rect) : M unit :=
  match sizebox_response with
  | None => ret tt
  | Some sizebox_response =>
      let drag := drag_started sizebox_response in
      if f32_lt (x pos) (left sizebox_inner) then
        if f32_lt (y pos) (top sizebox_inner) then resize_to ResizeNorthWest NorthWest drag
        else if f32_lt (bottom sizebox_inner) (y pos) then resize_to ResizeSouthWest SouthWest drag
        else resize_to ResizeWest West drag
      else if f32_lt (right sizebox_inner) (x pos) then
        if f32_lt (y pos) (top sizebox_inner) then resize_to ResizeNorthEast NorthEast drag
        else if f32_lt (bottom sizebox_inner) (y pos) then resize_to ResizeSouthEast SouthEast drag
        else resize_to ResizeEast East drag
      else
        if f32_lt (y pos) (top sizebox_inner) then resize_to ResizeNorth North drag
        else if f32_lt (bottom sizebox_inner) (y pos) then resize_to ResizeSouth South drag
        else ret tt
  end.

(** "produce caption dragging and double clicking" (lib.rs lines 207-216) *)
Definition produce_caption (caption_response : option Response) (is_maximized : bool) : M unit :=
  match caption_response with
  | None => ret tt
  | Some caption_response =>
      (if drag_started caption_response then send_viewport_cmd StartDrag else ret tt) ;;
      (if double_clicked caption_response
       then send_viewport_cmd (Maximized (negb is_maximized)) else ret tt)
  end.

Definition show {R} (self : CustomFrame) (ctx : Context) (add_content : Ui -> R) : M R :=
  let is_maximized := unwrap_or (viewport_maximized ctx) false in
  let shadow_width := if is_maximized then 0 else blur (shadow self) + spread (shadow self) in
  let panel_frame :=
    {| f_fill := panel_fill ctx;
       f_rounding := if is_maximized then Rounding_ZERO else rounding self;
       f_stroke := Stroke_NONE;
       f_outer_margin := Margin_same shadow_width;
       f_inner_margin := inner_margin self;
       f_shadow := if is_maximized then Shadow_NONE else shadow self |} in
  central_panel_show panel_frame ctx (fun ui =>
    let view_rect := ui_clip_rect ui in
    let view_rect :=
      shrink (from_min_size Pos2_ZERO (mkVec2 (width view_rect) (height view_rect)))
             shadow_width in
    let sizebox_inner := rect_sub_margin view_rect (sizebox self) in
    let caption_rect :=
      intersect (translate (caption self) (mkVec2 shadow_width shadow_width)) sizebox_inner in
    let pos := unwrap_or (interact_pos ctx) (mkPos2 f32_MIN f32_MIN) in
    sizebox_response <-
      (if contains view_rect pos && negb (contains sizebox_inner pos) && negb is_maximized
       then r <- ui_interact ctx view_rect "custom_frame_sizebox" Sense_drag ;; ret (Some r)
       else ret None) ;;
    caption_response <-
      (if contains caption_rect pos
       then r <- ui_interact ctx caption_rect "custom_frame_caption" Sense_click_and_drag ;;
            ret (Some r)
       else ret None) ;;
    produce_resizing sizebox_response pos sizebox_inner ;;
    produce_caption caption_response is_maximized ;;
    ret (add_content ui)).

(** ** The values [show] derives in one pass, named *)
Section Derived.

Variables (self : CustomFrame) (ctx : Context).

Definition is_maximized_of : bool := unwrap_or (viewport_maximized ctx) false.

Definition shadow_width_of : Q :=
  if is_maximized_of then 0 else blur (shadow self) + spread (shadow self).

Definition panel_frame_of : Frame :=
  {| f_fill := panel_fill ctx;
     f_rounding := if is_maximized_of then Rounding_ZERO else rounding self;
     f_stroke := Stroke_NONE;
     f_outer_margin := Margin_same shadow_width_of;
     f_inner_margin := inner_margin self;
     f_shadow := if is_maximized_of then Shadow_NONE else shadow self |}.

Definition view_rect_of : Rect :=
  shrink (from_min_size Pos2_ZERO (mkVec2 (width (clip_rect ctx)) (height (clip_rect ctx))))
         shadow_width_of.

Definition sizebox_inner_of : Rect := rect_sub_margin view_rect_of (sizebox self).

Definition caption_rect_of : Rect :=
  intersect (translate (caption self) (mkVec2 shadow_width_of shadow_width_of))
            sizebox_inner_of.

Definition pos_of : Pos2 := unwrap_or (interact_pos ctx) (mkPos2 f32_MIN f32_MIN).

(** the guard of the sizebox region (lib.rs lines 115-117) *)
Definition in_sizebox : bool :=
  contains view_rect_of pos_of && negb (contains sizebox_inner_of pos_of)
  && negb is_maximized_of.

(** the guard of the caption region (lib.rs line 128) *)
Definition in_caption : bool := contains caption_rect_of pos_of.

Definition sizebox_response_of : option Response :=
  if in_sizebox then Some (responses ctx "custom_frame_sizebox") else None.

Definition caption_response_of : option Response :=
  if in_caption then Some (responses ctx "custom_frame_caption") else None.

End Derived.

Definition effects {A} (m : M A) : list Effect := snd (run m).

(** ** Reading the log *)
Definition regions (log : list Effect) : list (Rect * string * Sense) :=
  flat_map (fun e => match e with Interact r id s => [(r, id, s)] | _ => [] end) log.

(** the regions registered under one [Id] *)
Definition regions_of (id : string) (log : list Effect) : list (Rect * Sense) :=
  flat_map (fun e => match e with
                     | Interact r id' s => if String.eqb id id' then [(r, s)] else []
                     | _ => [] end) log.

Definition cursor_icons (log : list Effect) : list CursorIcon :=
  flat_map (fun e => match e with SetCursorIcon c => [c] | _ => [] end) log.

Definition commands (log : list Effect) : list ViewportCommand :=
  flat_map (fun e => match e with SendViewportCmd c => [c] | _ => [] end) log.

Definition resize_commands (log : list Effect) : list ResizeDirection :=
  flat_map (fun c => match c with BeginResize d => [d] | _ => [] end) (commands log).

Definition is_start_drag (c : ViewportCommand) : bool :=
  match c with StartDrag => true | _ => false end.

Definition start_drags (log : list Effect) : list ViewportCommand :=
  filter is_start_drag (commands log).

Definition is_maximize (c : ViewportCommand) : bool :=
  match c with Maximized _ => true | _ => false end.

Definition maximize_commands (log : list Effect) : list ViewportCommand :=
  filter is_maximize (commands log).

Definition is_caption_command (c : ViewportCommand) : bool :=
  match c with StartDrag | Maximized _ => true | BeginResize _ => false end.

Definition caption_commands (log : list Effect) : list ViewportCommand :=
  filter is_caption_command (commands log).

Definition panels (log : list Effect) : list Frame :=
  flat_map (fun e => match e with ShowCentralPanel f => [f] | _ => [] end) log.

(** ** The edge rule as the spec words it (comparison definition)

    x < left with y < top: north-west; x < left with y > bottom: south-west;
    x < left otherwise: west; the same for x > right; in the middle column
    y < top: north, y > bottom: south; otherwise no direction. *)
Definition spec_octant (p : Pos2) (core : Rect) : option (CursorIcon * ResizeDirection) :=
  let row (nw_ : CursorIcon * ResizeDirection) (w_ : CursorIcon * ResizeDirection)
          (sw_ : CursorIcon * ResizeDirection) :=
    if Qlt_le_dec (y p) (top core) then Some nw_
    else if Qlt_le_dec (bottom core) (y p) then Some sw_
    else Some w_ in
  if Qlt_le_dec (x p) (left core) then
    row (ResizeNorthWest, NorthWest) (ResizeWest, West) (ResizeSouthWest, SouthWest)
  else if Qlt_le_dec (right core) (x p) then
    row (ResizeNorthEast, NorthEast) (ResizeEast, East) (ResizeSouthEast, SouthEast)
  else if Qlt_le_dec (y p) (top core) then Some (ResizeNorth, North)
  else if Qlt_le_dec (bottom core) (y p) then Some (ResizeSouth, South)
  else None.

(** ** The example window of src/examples: 320x120, default frame *)
Definition example_ctx (maximized : option bool) (pos : option Pos2) (drag dbl : bool) : Context :=
  {| viewport_maximized := maximized;
     panel_fill := mkColor32 27 27 27 255;
     clip_rect := from_min_max Pos2_ZERO (mkPos2 320 120);
     interact_pos := pos;
     responses := fun _ => mkResponse drag dbl |}.

(** ** The log only grows *)
(** The frame of [TestApp::new] (src/examples/custom_frame.rs): the default
    frame with the caption from (0, 0) to (f32::MAX, f32::MAX), "Make the
    whole window draggable". *)
Definition TestApp_frame : CustomFrame :=
  Builder.caption CustomFrame_default
    (from_min_max (mkPos2 0 0) (mkPos2 f32_MAX f32_MAX)).

(** Two builder methods target the same field *)
Definition same_builder_kind (b1 b2 : BuilderMethod) : bool :=
  match b1, b2 with
  | BSizebox _, BSizebox _ | BCaption _, BCaption _
  | BRounding _, BRounding _ | BShadow _, BShadow _ => true
  | _, _ => false
  end.

(** Finite f32 values: m * 2^e with |m| < 2^24 and -149 <= e <= 104 *)
Definition is_f32 (q : Q) : Prop :=
  exists m e : Z, (Z.abs m < 2 ^ 24)%Z /\ (-149 <= e <= 104)%Z /\
    (if (0 <=? e)%Z then q == inject_Z (m * 2 ^ e) else q == m # Z.to_pos (2 ^ (- e))).

(** [10.3_f32], the f32 nearest to 10.3 *)
Definition f32_10_3 : Q := 10800333 # 1048576.

(** The default frame with the caption (10.3_f32, 4) to (f32::MAX, 44) *)
Definition frame_caption_10_3 : CustomFrame :=
  Builder.caption CustomFrame_default
    (from_min_max (mkPos2 f32_10_3 4) (mkPos2 f32_MAX 44)).

(** The cursor icon each branch of "produce resizing" pairs with its direction *)
Definition icon_of_dir (d : ResizeDirection) : CursorIcon :=
  match d with
  | North => ResizeNorth | South => ResizeSouth | East => ResizeEast | West => ResizeWest
  | NorthEast => ResizeNorthEast | SouthEast => ResizeSouthEast
  | NorthWest => ResizeNorthWest | SouthWest => ResizeSouthWest
  end.

Definition appends {A} (m : M A) : Prop :=
  forall log, m log = (fst (run m), log ++ effects m).

(** * Proofs *)

(** ** The example window, evaluated (spec section 8 scenario) *)
Example example_pos_far :
  effects (show CustomFrame_default (example_ctx None (Some (mkPos2 1 1)) true true) (fun _ => tt))
  = [ShowCentralPanel (panel_frame_of CustomFrame_default (example_ctx None (Some (mkPos2 1 1)) true true))].
Proof. vm_compute. reflexivity. Qed.

Example example_pos_caption :
  commands (effects (show CustomFrame_default (example_ctx None (Some (mkPos2 25 25)) true false) (fun _ => tt)))
  = [StartDrag].
Proof. vm_compute. reflexivity. Qed.

Example example_pos_west :
  let log := effects (show CustomFrame_default (example_ctx None (Some (mkPos2 21 60)) true false) (fun _ => tt)) in
  cursor_icons log = [ResizeWest] /\ commands log = [BeginResize West].
Proof. vm_compute. split; reflexivity. Qed.


Lemma appends_ret {A} (a : A) : appends (ret a).
Proof. intros log. unfold ret, effects, run. simpl. now rewrite app_nil_r. Qed.

Lemma appends_emit e : appends (emit e).
Proof. intros log. reflexivity. Qed.

Lemma appends_bind {A B} (m : M A) (k : A -> M B) :
  appends m -> (forall a, appends (k a)) -> appends (bind m k).
Proof.
  intros Hm Hk log. unfold effects, run at 1 2. unfold bind.
  rewrite (Hm log), (Hm []). simpl.
  rewrite (Hk _ (log ++ _)), (Hk _ (effects m)). simpl.
  now rewrite app_assoc.
Qed.

Create HintDb effects.
#[local] Hint Resolve appends_ret appends_emit appends_bind : effects.

Lemma appends_resize_to i d b : appends (resize_to i d b).
Proof.
  unfold resize_to, set_cursor_icon, send_viewport_cmd.
  apply appends_bind; [auto with effects|]. intros _. destruct b; auto with effects.
Qed.

#[local] Hint Resolve appends_resize_to : effects.

Lemma appends_produce_resizing r p si : appends (produce_resizing r p si).
Proof.
  unfold produce_resizing. destruct r as [r|]; [|auto with effects].
  repeat match goal with |- appends (if ?c then _ else _) => destruct c end;
    auto with effects.
Qed.

Lemma appends_produce_caption r m : appends (produce_caption r m).
Proof.
  unfold produce_caption, send_viewport_cmd. destruct r as [r|]; [|auto with effects].
  apply appends_bind.
  - destruct (drag_started r); auto with effects.
  - intros _. destruct (double_clicked r); auto with effects.
Qed.

(** ** One pass of [show], as a log *)
Lemma show_log {R} self ctx (add_content : Ui -> R) :
  run (show self ctx add_content) =
  (add_content (mkUi (clip_rect ctx)),
   ShowCentralPanel (panel_frame_of self ctx)
   :: (if in_sizebox self ctx
       then [Interact (view_rect_of self ctx) "custom_frame_sizebox" Sense_drag] else [])
   ++ (if in_caption self ctx
       then [Interact (caption_rect_of self ctx) "custom_frame_caption" Sense_click_and_drag]
       else [])
   ++ effects (produce_resizing (sizebox_response_of self ctx) (pos_of ctx)
                                (sizebox_inner_of self ctx))
   ++ effects (produce_caption (caption_response_of self ctx) (is_maximized_of ctx))).
Proof.
  unfold sizebox_response_of, caption_response_of.
  unfold show, run, central_panel_show, bind at 1; cbn zeta.
  fold (is_maximized_of ctx). fold (shadow_width_of self ctx).
  fold (panel_frame_of self ctx). cbn [ui_clip_rect].
  fold (view_rect_of self ctx). fold (sizebox_inner_of self ctx).
  fold (caption_rect_of self ctx). fold (pos_of ctx).
  fold (in_sizebox self ctx). fold (in_caption self ctx).
  destruct (in_sizebox self ctx), (in_caption self ctx);
    cbn -[produce_resizing produce_caption]; unfold bind;
    rewrite appends_produce_resizing; cbn beta iota;
    rewrite appends_produce_caption; unfold ret; cbn beta iota;
    rewrite <- ?app_assoc; reflexivity.
Qed.


(** ** Readers over appended logs *)
Lemma regions_app l1 l2 : regions (l1 ++ l2) = regions l1 ++ regions l2.
Proof. apply flat_map_app. Qed.
Lemma cursor_icons_app l1 l2 : cursor_icons (l1 ++ l2) = cursor_icons l1 ++ cursor_icons l2.
Proof. apply flat_map_app. Qed.
Lemma commands_app l1 l2 : commands (l1 ++ l2) = commands l1 ++ commands l2.
Proof. apply flat_map_app. Qed.
Lemma panels_app l1 l2 : panels (l1 ++ l2) = panels l1 ++ panels l2.
Proof. apply flat_map_app. Qed.
Lemma resize_commands_app l1 l2 :
  resize_commands (l1 ++ l2) = resize_commands l1 ++ resize_commands l2.
Proof. unfold resize_commands. rewrite commands_app. apply flat_map_app. Qed.

Ltac split_ifs :=
  repeat match goal with |- context [if ?c then _ else _] => destruct c end.

Lemma produce_resizing_quiet r p si :
  regions (effects (produce_resizing r p si)) = [] /\
  panels (effects (produce_resizing r p si)) = [] /\
  caption_commands (effects (produce_resizing r p si)) = [].
Proof.
  unfold produce_resizing, resize_to. destruct r as [r|]; [|repeat split].
  split_ifs; repeat split.
Qed.

Lemma produce_caption_quiet r m :
  regions (effects (produce_caption r m)) = [] /\
  panels (effects (produce_caption r m)) = [] /\
  cursor_icons (effects (produce_caption r m)) = [] /\
  resize_commands (effects (produce_caption r m)) = [].
Proof.
  unfold produce_caption. destruct r as [r|]; [|repeat split].
  split_ifs; repeat split.
Qed.

Lemma produce_resizing_none p si : effects (produce_resizing None p si) = [].
Proof. reflexivity. Qed.

Lemma produce_caption_none m : effects (produce_caption None m) = [].
Proof. reflexivity. Qed.

(** ** Comparisons *)
Lemma f32_lt_dec a b : f32_lt a b = if Qlt_le_dec a b then true else false.
Proof.
  unfold f32_lt. destruct (Qlt_le_dec a b) as [H|H].
  - destruct (Qle_bool b a) eqn:E; [|reflexivity].
    apply Qle_bool_iff in E. exfalso. apply (Qlt_not_le a b); assumption.
  - apply Qle_bool_iff in H. now rewrite H.
Qed.

Lemma contains_iff r p :
  contains r p = true <->
  x (min r) <= x p /\ x p <= x (max r) /\ y (min r) <= y p /\ y p <= y (max r).
Proof.
  unfold contains. rewrite !andb_true_iff, !Qle_bool_iff. tauto.
Qed.

Lemma f32_max_ge_r a b : b <= f32_max a b.
Proof.
  unfold f32_max. destruct (Qle_bool a b) eqn:E; [apply Qle_refl|].
  apply Qlt_le_weak, Qnot_le_lt. intro H. apply Qle_bool_iff in H. congruence.
Qed.

Lemma f32_min_le_r a b : f32_min a b <= b.
Proof.
  unfold f32_min. destruct (Qle_bool a b) eqn:E; [now apply Qle_bool_iff|apply Qle_refl].
Qed.

(** A point of an intersection lies in the second rectangle *)
Lemma contains_intersect_r r c p :
  contains (intersect r c) p = true -> contains c p = true.
Proof.
  rewrite !contains_iff. unfold intersect, pos_max, pos_min; cbn.
  intros (H1 & H2 & H3 & H4). repeat split.
  - eapply Qle_trans; [apply f32_max_ge_r|exact H1].
  - eapply Qle_trans; [exact H2|apply f32_min_le_r].
  - eapply Qle_trans; [apply f32_max_ge_r|exact H3].
  - eapply Qle_trans; [exact H4|apply f32_min_le_r].
Qed.

(** The caption rectangle sits inside the sizebox inner rectangle *)
Lemma caption_in_core self ctx p :
  contains (caption_rect_of self ctx) p = true -> contains (sizebox_inner_of self ctx) p = true.
Proof. apply contains_intersect_r. Qed.

(** ** The direction resolution is the spec's edge rule *)
Lemma produce_resizing_octant r p si :
  effects (produce_resizing (Some r) p si) =
  match spec_octant p si with
  | Some (icon, dir) => effects (resize_to icon dir (drag_started r))
  | None => []
  end.
Proof.
  unfold produce_resizing, spec_octant. rewrite !f32_lt_dec.
  repeat match goal with |- context [Qlt_le_dec ?a ?b] => destruct (Qlt_le_dec a b) end;
    reflexivity.
Qed.

Lemma spec_octant_none p si : spec_octant p si = None <-> contains si p = true.
Proof.
  rewrite contains_iff. unfold spec_octant, left, right, top, bottom.
  repeat match goal with |- context [Qlt_le_dec ?a ?b] => destruct (Qlt_le_dec a b) end;
    split; try discriminate; intros; try tauto;
    exfalso; destruct H as (? & ? & ? & ?);
    match goal with
    | H : ?a < ?b, H' : ?b <= ?a |- _ => exact (Qlt_not_le _ _ H H')
    end.
Qed.

Lemma show_effects {R} self ctx (add_content : Ui -> R) :
  effects (show self ctx add_content) =
   ShowCentralPanel (panel_frame_of self ctx)
   :: (if in_sizebox self ctx
       then [Interact (view_rect_of self ctx) "custom_frame_sizebox" Sense_drag] else [])
   ++ (if in_caption self ctx
       then [Interact (caption_rect_of self ctx) "custom_frame_caption" Sense_click_and_drag]
       else [])
   ++ effects (produce_resizing (sizebox_response_of self ctx) (pos_of ctx)
                                (sizebox_inner_of self ctx))
   ++ effects (produce_caption (caption_response_of self ctx) (is_maximized_of ctx)).
Proof. unfold effects at 1. now rewrite show_log. Qed.

Lemma resize_to_effects icon dir b :
  effects (resize_to icon dir b) =
  SetCursorIcon icon :: (if b then [SendViewportCmd (BeginResize dir)] else []).
Proof. destruct b; reflexivity. Qed.

(** Inside the sizebox ring the caption region is not registered *)
Lemma ring_not_caption self ctx :
  contains (sizebox_inner_of self ctx) (pos_of ctx) = false -> in_caption self ctx = false.
Proof.
  intros H. unfold in_caption. destruct (contains (caption_rect_of self ctx) (pos_of ctx)) eqn:E;
    [|reflexivity].
  apply caption_in_core in E. congruence.
Qed.

(** Inside the caption the sizebox region is not registered *)
Lemma caption_not_ring self ctx :
  in_caption self ctx = true -> in_sizebox self ctx = false.
Proof.
  unfold in_caption, in_sizebox. intros H. apply caption_in_core in H. rewrite H.
  now rewrite andb_false_r, andb_false_l.
Qed.

(** C1: with the window not maximized and the pointer inside the view
    rectangle but outside the sizebox inner rectangle, the pass sets exactly
    one cursor icon, the one the spec's edge rule gives (north-west for
    left-and-above, and so on), and on a drag start of the sizebox region it
    sends exactly the matching [BeginResize] command, nothing on other frames. *)
Theorem resize_direction_edge_rule {R} self ctx (add_content : Ui -> R) p :
  interact_pos ctx = Some p ->
  is_maximized_of ctx = false ->
  contains (view_rect_of self ctx) p = true ->
  contains (sizebox_inner_of self ctx) p = false ->
  exists icon dir,
    spec_octant p (sizebox_inner_of self ctx) = Some (icon, dir) /\
    cursor_icons (effects (show self ctx add_content)) = [icon] /\
    resize_commands (effects (show self ctx add_content)) =
      (if drag_started (responses ctx "custom_frame_sizebox") then [dir] else []).
Proof.
  intros Hp Hm Hv Hc.
  assert (Hpos : pos_of ctx = p) by (unfold pos_of; now rewrite Hp).
  assert (Hs : in_sizebox self ctx = true)
    by (unfold in_sizebox; rewrite Hpos, Hv, Hc, Hm; reflexivity).
  assert (Hcap : in_caption self ctx = false)
    by (apply ring_not_caption; now rewrite Hpos).
  destruct (spec_octant p (sizebox_inner_of self ctx)) as [[icon dir]|] eqn:Ho.
  2:{ apply spec_octant_none in Ho. congruence. }
  exists icon, dir. split; [reflexivity|].
  rewrite show_effects, Hs, Hcap. unfold sizebox_response_of, caption_response_of.
  rewrite Hs, Hcap, Hpos, produce_resizing_octant, Ho, resize_to_effects,
    produce_caption_none.
  split; destruct (drag_started (responses ctx "custom_frame_sizebox")); reflexivity.
Qed.

Lemma resize_direction_edge_rule_witness :
  let ctx := example_ctx None (Some (mkPos2 21 60)) true false in
  interact_pos ctx = Some (mkPos2 21 60) /\
  is_maximized_of ctx = false /\
  contains (view_rect_of CustomFrame_default ctx) (mkPos2 21 60) = true /\
  contains (sizebox_inner_of CustomFrame_default ctx) (mkPos2 21 60) = false /\
  exists icon dir,
    spec_octant (mkPos2 21 60) (sizebox_inner_of CustomFrame_default ctx) = Some (icon, dir) /\
    cursor_icons (effects (show CustomFrame_default ctx (fun _ => tt))) = [icon] /\
    resize_commands (effects (show CustomFrame_default ctx (fun _ => tt))) =
      (if drag_started (responses ctx "custom_frame_sizebox") then [dir] else []).
Proof.
  intros ctx.
  assert (H1 : interact_pos ctx = Some (mkPos2 21 60)) by reflexivity.
  assert (H2 : is_maximized_of ctx = false) by reflexivity.
  assert (H3 : contains (view_rect_of CustomFrame_default ctx) (mkPos2 21 60) = true)
    by (vm_compute; reflexivity).
  assert (H4 : contains (sizebox_inner_of CustomFrame_default ctx) (mkPos2 21 60) = false)
    by (vm_compute; reflexivity).
  split; [exact H1|]. split; [exact H2|]. split; [exact H3|]. split; [exact H4|].
  exact (resize_direction_edge_rule CustomFrame_default ctx (fun _ => tt) _ H1 H2 H3 H4).
Defined.

Lemma regions_of_app id l1 l2 : regions_of id (l1 ++ l2) = regions_of id l1 ++ regions_of id l2.
Proof. apply flat_map_app. Qed.

Lemma regions_of_nil id l : regions l = [] -> regions_of id l = [].
Proof.
  induction l as [|e l IH]; [reflexivity|].
  destruct e; cbn; try discriminate; apply IH.
Qed.

Lemma regions_of_panel id f l : regions_of id (ShowCentralPanel f :: l) = regions_of id l.
Proof. reflexivity. Qed.

Lemma regions_of_show {R} self ctx (add_content : Ui -> R) :
  regions_of "custom_frame_sizebox" (effects (show self ctx add_content)) =
    (if in_sizebox self ctx then [(view_rect_of self ctx, Sense_drag)] else []) /\
  regions_of "custom_frame_caption" (effects (show self ctx add_content)) =
    (if in_caption self ctx then [(caption_rect_of self ctx, Sense_click_and_drag)] else []).
Proof.
  rewrite show_effects.
  destruct (produce_resizing_quiet (sizebox_response_of self ctx) (pos_of ctx)
              (sizebox_inner_of self ctx)) as (H1 & _).
  destruct (produce_caption_quiet (caption_response_of self ctx) (is_maximized_of ctx))
    as (H2 & _).
  rewrite !regions_of_panel, !regions_of_app, !(regions_of_nil _ _ H1), !(regions_of_nil _ _ H2).
  rewrite !app_nil_r. destruct (in_sizebox self ctx), (in_caption self ctx); split; reflexivity.
Qed.

(** C2: the sizebox region ["custom_frame_sizebox"] is registered in a pass
    exactly when the pointer lies in the view rectangle, outside the sizebox
    inner rectangle, and the window is not maximized; it then covers the whole
    view rectangle; with the pointer inside the inner rectangle it is not
    registered. *)
Theorem sizebox_region_activation {R} self ctx (add_content : Ui -> R) :
  let registered := regions_of "custom_frame_sizebox" (effects (show self ctx add_content)) in
  (registered <> [] <->
     contains (view_rect_of self ctx) (pos_of ctx) = true /\
     contains (sizebox_inner_of self ctx) (pos_of ctx) = false /\
     is_maximized_of ctx = false) /\
  (forall r s, In (r, s) registered -> r = view_rect_of self ctx) /\
  (contains (sizebox_inner_of self ctx) (pos_of ctx) = true -> registered = []).
Proof.
  intros registered. unfold registered. rewrite (proj1 (regions_of_show self ctx add_content)).
  assert (Hg : in_sizebox self ctx = true <->
     contains (view_rect_of self ctx) (pos_of ctx) = true /\
     contains (sizebox_inner_of self ctx) (pos_of ctx) = false /\
     is_maximized_of ctx = false).
  { unfold in_sizebox. rewrite !andb_true_iff, !negb_true_iff. tauto. }
  destruct (in_sizebox self ctx) eqn:E; split; [| split | | split].
  - split; [intros _; now apply Hg | discriminate].
  - intros r s [H|[]]. now inversion H.
  - intros Hc. destruct (proj1 Hg eq_refl) as (_ & E' & _). congruence.
  - split; [intros H; contradiction H; reflexivity | intros H; apply Hg in H; discriminate].
  - intros r s [].
  - intros _. reflexivity.
Qed.

Lemma sizebox_region_activation_witness :
  let ctx := example_ctx None (Some (mkPos2 25 25)) true false in
  contains (sizebox_inner_of CustomFrame_default ctx) (pos_of ctx) = true /\
  regions_of "custom_frame_sizebox" (effects (show CustomFrame_default ctx (fun _ => tt))) = [].
Proof.
  intros ctx.
  assert (H : contains (sizebox_inner_of CustomFrame_default ctx) (pos_of ctx) = true)
    by (vm_compute; reflexivity).
  split; [exact H|].
  exact (proj2 (proj2 (sizebox_region_activation CustomFrame_default ctx (fun _ => tt))) H).
Defined.

(** C7: once the sizebox region is registered (pointer in the view
    rectangle and outside the sizebox inner rectangle), the interior case of
    the direction resolution, where none of the four edge comparisons holds,
    is not reached: the direction resolution always sets a cursor icon. *)
Theorem interior_case_unreachable self ctx :
  contains (view_rect_of self ctx) (pos_of ctx) = true ->
  contains (sizebox_inner_of self ctx) (pos_of ctx) = false ->
  let pos := pos_of ctx in
  let si := sizebox_inner_of self ctx in
  (negb (f32_lt (x pos) (left si)) && negb (f32_lt (right si) (x pos)) &&
   negb (f32_lt (y pos) (top si)) && negb (f32_lt (bottom si) (y pos))) = false /\
  forall r, cursor_icons (effects (produce_resizing (Some r) pos si)) <> [].
Proof.
  intros _ Hc. cbv zeta.
  set (pos := pos_of ctx) in *. set (si := sizebox_inner_of self ctx) in *. split.
  - rewrite !f32_lt_dec.
    destruct (Qlt_le_dec (x pos) (left si)), (Qlt_le_dec (right si) (x pos)),
      (Qlt_le_dec (y pos) (top si)), (Qlt_le_dec (bottom si) (y pos)); try reflexivity.
    exfalso. assert (contains si pos = true) by (apply contains_iff; tauto). congruence.
  - intros r. rewrite produce_resizing_octant.
    destruct (spec_octant pos si) as [[icon dir]|] eqn:Ho.
    + rewrite resize_to_effects. discriminate.
    + apply spec_octant_none in Ho. congruence.
Qed.

Lemma interior_case_unreachable_witness :
  let ctx := example_ctx None (Some (mkPos2 21 60)) true false in
  contains (view_rect_of CustomFrame_default ctx) (pos_of ctx) = true /\
  contains (sizebox_inner_of CustomFrame_default ctx) (pos_of ctx) = false /\
  (let pos := pos_of ctx in
   let si := sizebox_inner_of CustomFrame_default ctx in
   (negb (f32_lt (x pos) (left si)) && negb (f32_lt (right si) (x pos)) &&
    negb (f32_lt (y pos) (top si)) && negb (f32_lt (bottom si) (y pos))) = false /\
   forall r, cursor_icons (effects (produce_resizing (Some r) pos si)) <> []).
Proof.
  intros ctx.
  assert (H1 : contains (view_rect_of CustomFrame_default ctx) (pos_of ctx) = true)
    by (vm_compute; reflexivity).
  assert (H2 : contains (sizebox_inner_of CustomFrame_default ctx) (pos_of ctx) = false)
    by (vm_compute; reflexivity).
  split; [exact H1|]. split; [exact H2|].
  exact (interior_case_unreachable CustomFrame_default ctx H1 H2).
Defined.

(** C3: a pass shows one panel; when the window is maximized the shadow
    width is 0, the panel has rounding [Rounding::ZERO] and shadow
    [Shadow::NONE], and no sizebox region is registered wherever the pointer
    is; otherwise the shadow width is [blur + spread] and the panel uses the
    configured rounding and shadow.  The panel's outer margin is the shadow
    width either way. *)
Theorem maximized_suppresses_decoration {R} self ctx (add_content : Ui -> R) :
  let log := effects (show self ctx add_content) in
  exists f, panels log = [f] /\
    f_outer_margin f = Margin_same (shadow_width_of self ctx) /\
    (is_maximized_of ctx = true ->
       shadow_width_of self ctx = 0 /\ f_rounding f = Rounding_ZERO /\
       f_shadow f = Shadow_NONE /\ regions_of "custom_frame_sizebox" log = []) /\
    (is_maximized_of ctx = false ->
       shadow_width_of self ctx = blur (shadow self) + spread (shadow self) /\
       f_rounding f = rounding self /\ f_shadow f = shadow self).
Proof.
  intros log. exists (panel_frame_of self ctx). split; [|split; [|split]].
  - unfold log. rewrite show_effects. cbn [panels flat_map app]. fold panels.
    rewrite !panels_app.
    rewrite (proj1 (proj2 (produce_resizing_quiet (sizebox_response_of self ctx) (pos_of ctx)
                              (sizebox_inner_of self ctx)))).
    rewrite (proj1 (proj2 (produce_caption_quiet (caption_response_of self ctx)
                              (is_maximized_of ctx)))).
    destruct (in_sizebox self ctx), (in_caption self ctx); reflexivity.
  - reflexivity.
  - intros Hm. unfold panel_frame_of, shadow_width_of. rewrite Hm.
    split; [reflexivity|]. split; [reflexivity|]. split; [reflexivity|].
    unfold log. rewrite (proj1 (regions_of_show self ctx add_content)).
    unfold in_sizebox. rewrite Hm, andb_false_r. reflexivity.
  - intros Hm. unfold panel_frame_of, shadow_width_of. rewrite Hm. repeat split.
Qed.

Lemma maximized_suppresses_decoration_witness :
  let ctx := example_ctx (Some true) (Some (mkPos2 1 1)) true false in
  is_maximized_of ctx = true /\
  exists f, panels (effects (show CustomFrame_default ctx (fun _ => tt))) = [f] /\
    f_rounding f = Rounding_ZERO /\ f_shadow f = Shadow_NONE.
Proof.
  intros ctx. assert (H : is_maximized_of ctx = true) by reflexivity.
  split; [exact H|].
  destruct (maximized_suppresses_decoration CustomFrame_default ctx (fun _ => tt))
    as (f & Hf & _ & Hmax & _).
  destruct (Hmax H) as (_ & Hr & Hs & _).
  exists f. split; [exact Hf|]. split; [exact Hr|exact Hs].
Defined.

(** The corners of a non-empty intersection lie in the second rectangle *)
Lemma intersect_corners r c p :
  contains (intersect r c) p = true ->
  contains c (min (intersect r c)) = true /\ contains c (max (intersect r c)) = true.
Proof.
  intros Hp. pose proof (contains_intersect_r r c p Hp) as Hc.
  rewrite contains_iff in Hp, Hc. rewrite !contains_iff.
  unfold intersect, pos_max, pos_min in *; cbn in *.
  destruct Hp as (P1 & P2 & P3 & P4). destruct Hc as (C1 & C2 & C3 & C4).
  repeat split.
  - apply f32_max_ge_r.
  - eapply Qle_trans; [exact P1|]. eapply Qle_trans; [exact P2|]. apply f32_min_le_r.
  - apply f32_max_ge_r.
  - eapply Qle_trans; [exact P3|]. eapply Qle_trans; [exact P4|]. apply f32_min_le_r.
  - eapply Qle_trans; [|exact P2]. eapply Qle_trans; [|exact P1]. apply f32_max_ge_r.
  - apply f32_min_le_r.
  - eapply Qle_trans; [|exact P4]. eapply Qle_trans; [|exact P3]. apply f32_max_ge_r.
  - apply f32_min_le_r.
Qed.

Lemma not_f32_31771853 : ~ is_f32 (31771853 # 1048576).
Proof.
  intros (m & e & Hm & He & Hq).
  change (2 ^ 24)%Z with 16777216%Z in Hm.
  destruct (0 <=? e)%Z eqn:E.
  - unfold Qeq, inject_Z in Hq; cbn [Qnum Qden] in Hq.
    set (t := (m * 2 ^ e)%Z) in Hq. lia.
  - apply Z.leb_gt in E.
    unfold Qeq in Hq; cbn [Qnum Qden] in Hq.
    rewrite Z2Pos.id in Hq by (apply Z.pow_pos_nonneg; lia).
    set (k := (- e)%Z) in *. assert (Hk : (0 < k)%Z) by lia.
    destruct (Z.le_gt_cases 20 k) as [H20|H20].
    + replace (2 ^ k)%Z with (2 ^ (k - 20) * 2 ^ 20)%Z in Hq
        by (rewrite <- Z.pow_add_r by lia; f_equal; lia).
      assert (Hp : (0 < 2 ^ (k - 20))%Z) by (apply Z.pow_pos_nonneg; lia).
      change (2 ^ 20)%Z with 1048576%Z in Hq. nia.
    + assert (H2 : (2 ^ 20 = 2 ^ k * (2 * 2 ^ (19 - k)))%Z).
      { rewrite <- Z.pow_succ_r by lia. rewrite <- Z.pow_add_r by lia. f_equal. lia. }
      change (Z.pos 1048576) with (2 ^ 20)%Z in Hq. rewrite H2 in Hq.
      assert (Hp : (0 < 2 ^ k)%Z) by (apply Z.pow_pos_nonneg; lia).
      assert (Hc : (31771853 = 2 * (m * 2 ^ (19 - k)))%Z).
      { apply (Z.mul_cancel_r _ _ (2 ^ k)); [lia|]. lia. }
      set (t := (m * 2 ^ (19 - k))%Z) in Hc. lia.
Qed.

(** C4, as the claim states it, fails for the f32 program: with the
    configured caption left edge 10.3_f32 (an f32: 10800333 * 2^-20) and the
    default shadow (shadow width 20), the rectangle the claim describes (the
    caption translated by exactly (20, 20), then intersected with the sizebox
    inner rectangle, whose left edge is 24) has the left edge
    31771853 * 2^-20, which is no f32 value: the program's caption rectangle,
    made of f32 values, cannot be it. *)
Lemma caption_translation_not_exact_in_f32 :
  let ctx := example_ctx None (Some (mkPos2 25 25)) false false in
  is_f32 (x (min (caption frame_caption_10_3))) /\
  shadow_width_of frame_caption_10_3 ctx = 20 /\
  x (min (caption_rect_of frame_caption_10_3 ctx)) ==
    x (min (caption frame_caption_10_3)) + shadow_width_of frame_caption_10_3 ctx /\
  ~ is_f32 (x (min (caption_rect_of frame_caption_10_3 ctx))).
Proof.
  intros ctx. split; [|split; [|split]].
  - exists 10800333%Z, (-20)%Z. vm_compute. repeat split; discriminate || reflexivity.
  - reflexivity.
  - vm_compute. reflexivity.
  - assert (E : x (min (caption_rect_of frame_caption_10_3 ctx)) = 31771853 # 1048576)
      by (vm_compute; reflexivity).
    rewrite E. exact not_f32_31771853.
Qed.

(** C4 (amended): the caption rectangle of a pass is the configured caption
    moved by [Rect::translate] by (shadow width, shadow width) and then
    intersected with the sizebox inner rectangle, and it is the rectangle
    registered as the caption region.  Whatever rectangle the translation
    yields (so also with f32 rounding), every point of its intersection with
    the inner rectangle lies in the inner rectangle, and when that
    intersection is non-empty its two corners do too: the caption never
    extends into the resize ring. *)
Theorem caption_rect_inside_core self ctx :
  caption_rect_of self ctx =
    intersect (translate (caption self)
                 (mkVec2 (shadow_width_of self ctx) (shadow_width_of self ctx)))
              (sizebox_inner_of self ctx) /\
  (forall R (add_content : Ui -> R) r s,
     In (r, s) (regions_of "custom_frame_caption" (effects (show self ctx add_content))) ->
     r = caption_rect_of self ctx) /\
  (forall t p, contains (intersect t (sizebox_inner_of self ctx)) p = true ->
     contains (sizebox_inner_of self ctx) p = true) /\
  (forall t, (exists p, contains (intersect t (sizebox_inner_of self ctx)) p = true) ->
     contains (sizebox_inner_of self ctx) (min (intersect t (sizebox_inner_of self ctx))) = true /\
     contains (sizebox_inner_of self ctx) (max (intersect t (sizebox_inner_of self ctx))) = true).
Proof.
  split; [reflexivity|]. split; [|split].
  - intros R add_content r s. rewrite (proj2 (regions_of_show self ctx add_content)).
    destruct (in_caption self ctx); [intros [H|[]]; now inversion H | intros []].
  - intros t p. apply contains_intersect_r.
  - intros t (p & Hp). exact (intersect_corners _ _ p Hp).
Qed.

Lemma caption_rect_inside_core_witness :
  let ctx := example_ctx None (Some (mkPos2 25 25)) true false in
  let t := translate (caption CustomFrame_default) (mkVec2 20 20) in
  contains (intersect t (sizebox_inner_of CustomFrame_default ctx)) (mkPos2 25 25) = true /\
  contains (sizebox_inner_of CustomFrame_default ctx) (mkPos2 25 25) = true /\
  contains (sizebox_inner_of CustomFrame_default ctx)
    (max (intersect t (sizebox_inner_of CustomFrame_default ctx))) = true.
Proof.
  intros ctx t.
  assert (H : contains (intersect t (sizebox_inner_of CustomFrame_default ctx)) (mkPos2 25 25)
              = true) by (vm_compute; reflexivity).
  destruct (caption_rect_inside_core CustomFrame_default ctx) as (_ & _ & Hin & Hcorners).
  split; [exact H|]. split; [exact (Hin _ _ H)|].
  exact (proj2 (Hcorners t (ex_intro _ (mkPos2 25 25) H))).
Defined.

(** C5: with the pointer inside the caption rectangle, a drag start of the
    caption region sends exactly one [StartDrag] command and no [BeginResize]
    command, whatever the configured caption was before the intersection. *)
Theorem caption_drag_start {R} self ctx (add_content : Ui -> R) p :
  interact_pos ctx = Some p ->
  contains (caption_rect_of self ctx) p = true ->
  drag_started (responses ctx "custom_frame_caption") = true ->
  start_drags (effects (show self ctx add_content)) = [StartDrag] /\
  resize_commands (effects (show self ctx add_content)) = [].
Proof.
  intros Hp Hc Hd.
  assert (Hpos : pos_of ctx = p) by (unfold pos_of; now rewrite Hp).
  assert (Hcap : in_caption self ctx = true) by (unfold in_caption; now rewrite Hpos).
  pose proof (caption_not_ring self ctx Hcap) as Hs.
  rewrite show_effects. unfold sizebox_response_of, caption_response_of.
  rewrite Hs, Hcap, produce_resizing_none. unfold produce_caption.
  destruct (responses ctx "custom_frame_caption") as [drag dbl]. cbn in Hd. subst drag.
  destruct dbl; split; reflexivity.
Qed.

Lemma caption_drag_start_witness :
  let ctx := example_ctx None (Some (mkPos2 25 25)) true false in
  interact_pos ctx = Some (mkPos2 25 25) /\
  contains (caption_rect_of CustomFrame_default ctx) (mkPos2 25 25) = true /\
  drag_started (responses ctx "custom_frame_caption") = true /\
  start_drags (effects (show CustomFrame_default ctx (fun _ => tt))) = [StartDrag] /\
  resize_commands (effects (show CustomFrame_default ctx (fun _ => tt))) = [].
Proof.
  intros ctx.
  assert (H1 : interact_pos ctx = Some (mkPos2 25 25)) by reflexivity.
  assert (H2 : contains (caption_rect_of CustomFrame_default ctx) (mkPos2 25 25) = true)
    by (vm_compute; reflexivity).
  assert (H3 : drag_started (responses ctx "custom_frame_caption") = true) by reflexivity.
  split; [exact H1|]. split; [exact H2|]. split; [exact H3|].
  exact (caption_drag_start CustomFrame_default ctx (fun _ => tt) _ H1 H2 H3).
Defined.

Lemma commands_show {R} self ctx (add_content : Ui -> R) :
  commands (effects (show self ctx add_content)) =
  commands (effects (produce_resizing (sizebox_response_of self ctx) (pos_of ctx)
                                      (sizebox_inner_of self ctx)))
  ++ commands (effects (produce_caption (caption_response_of self ctx) (is_maximized_of ctx))).
Proof.
  rewrite show_effects. cbn [commands flat_map app]. fold commands.
  rewrite !commands_app. destruct (in_sizebox self ctx), (in_caption self ctx); reflexivity.
Qed.





Lemma f32_MIN_neg : f32_MIN < 0.
Proof. vm_compute. reflexivity. Qed.

(** C8: with no pointer interaction position the sentinel
    [(f32::MIN, f32::MIN)] lies in no zone: for a style with non-negative
    shadow blur and spread and non-negative left and top sizebox sides, the
    pass only shows the panel (no region registered, no cursor icon set, no
    command sent) and returns what the content callback returns. *)
Theorem no_pointer_no_zone {R} self ctx (add_content : Ui -> R) :
  interact_pos ctx = None ->
  0 <= blur (shadow self) -> 0 <= spread (shadow self) ->
  0 <= m_left (sizebox self) -> 0 <= m_top (sizebox self) ->
  run (show self ctx add_content) =
  (add_content (mkUi (clip_rect ctx)), [ShowCentralPanel (panel_frame_of self ctx)]).
Proof.
  intros Hp Hb Hsp Hl Ht.
  assert (Hpos : pos_of ctx = mkPos2 f32_MIN f32_MIN) by (unfold pos_of; now rewrite Hp).
  assert (Hsw : 0 <= shadow_width_of self ctx).
  { unfold shadow_width_of. destruct (is_maximized_of ctx); [apply Qle_refl | lra]. }
  pose proof f32_MIN_neg as Hmin.
  assert (Hv : contains (view_rect_of self ctx) (pos_of ctx) = false).
  { destruct (contains (view_rect_of self ctx) (pos_of ctx)) eqn:E; [|reflexivity].
    apply contains_iff in E. rewrite Hpos in E. destruct E as (E & _).
    unfold view_rect_of, shrink, shrink2, from_min_size, from_min_max, pos_add in E.
    cbn in E. lra. }
  assert (Hc : contains (caption_rect_of self ctx) (pos_of ctx) = false).
  { destruct (contains (caption_rect_of self ctx) (pos_of ctx)) eqn:E; [|reflexivity].
    apply caption_in_core, contains_iff in E. rewrite Hpos in E. destruct E as (E & _).
    unfold sizebox_inner_of, rect_sub_margin, view_rect_of, shrink, shrink2,
      from_min_size, from_min_max, pos_add, left_top in E.
    cbn in E. lra. }
  assert (Hs : in_sizebox self ctx = false) by (unfold in_sizebox; now rewrite Hv).
  assert (Hcap : in_caption self ctx = false) by exact Hc.
  rewrite show_log. unfold sizebox_response_of, caption_response_of. rewrite Hs, Hcap.
  reflexivity.
Qed.

Lemma no_pointer_no_zone_witness :
  let ctx := example_ctx None None true true in
  interact_pos ctx = None /\
  0 <= blur (shadow CustomFrame_default) /\ 0 <= spread (shadow CustomFrame_default) /\
  0 <= m_left (sizebox CustomFrame_default) /\ 0 <= m_top (sizebox CustomFrame_default) /\
  run (show CustomFrame_default ctx (fun _ => tt)) =
  (tt, [ShowCentralPanel (panel_frame_of CustomFrame_default ctx)]).
Proof.
  intros ctx.
  assert (H1 : interact_pos ctx = None) by reflexivity.
  assert (H2 : 0 <= blur (shadow CustomFrame_default)) by (vm_compute; discriminate).
  assert (H3 : 0 <= spread (shadow CustomFrame_default)) by (vm_compute; discriminate).
  assert (H4 : 0 <= m_left (sizebox CustomFrame_default)) by (vm_compute; discriminate).
  assert (H5 : 0 <= m_top (sizebox CustomFrame_default)) by (vm_compute; discriminate).
  repeat (split; [assumption|]).
  exact (no_pointer_no_zone CustomFrame_default ctx (fun _ => tt) H1 H2 H3 H4 H5).
Defined.

(** C9, as the claim states it, fails: [impl CustomFrame] declares no
    setter for the inner margin; no builder method changes the default's
    inner margin (10 on every side) to 0. *)
Lemma no_inner_margin_setter :
  ~ exists b : BuilderMethod,
      inner_margin (apply_builder CustomFrame_default b) = Margin_same 0.
Proof. intros [[m|r|r|s] H]; cbn in H; discriminate H. Qed.

(** C9 (amended): each of the four builder methods [sizebox], [caption],
    [rounding] and [shadow] returns the style with only its own field
    replaced by the argument, as given, and every other field as before; no
    builder method touches the inner margin. *)
Theorem builder_setters_replace_one_field self :
  (forall m, Builder.sizebox self m =
     {| sizebox := m; caption := caption self; inner_margin := inner_margin self;
        rounding := rounding self; shadow := shadow self |}) /\
  (forall r, Builder.caption self r =
     {| sizebox := sizebox self; caption := r; inner_margin := inner_margin self;
        rounding := rounding self; shadow := shadow self |}) /\
  (forall r, Builder.rounding self r =
     {| sizebox := sizebox self; caption := caption self; inner_margin := inner_margin self;
        rounding := r; shadow := shadow self |}) /\
  (forall s, Builder.shadow self s =
     {| sizebox := sizebox self; caption := caption self; inner_margin := inner_margin self;
        rounding := rounding self; shadow := s |}) /\
  (forall b, inner_margin (apply_builder self b) = inner_margin self).
Proof. repeat split. intros [m|r|r|s]; reflexivity. Qed.

(** C10: the default frame has a sizebox of 4 on all sides, the caption
    (4, 4) to (f32::MAX, 44), an inner margin of 10, a rounding of 10 and a
    shadow with zero offset, blur 18 and spread 2 (black, alpha 0x20); not
    maximized, its shadow width is exactly 20. *)
Theorem default_frame_values ctx :
  sizebox CustomFrame_default = mkMargin 4 4 4 4 /\
  caption CustomFrame_default = mkRect (mkPos2 4 4) (mkPos2 f32_MAX 44) /\
  f32_MAX = inject_Z ((2 ^ 24 - 1) * 2 ^ 104) /\
  inner_margin CustomFrame_default = mkMargin 10 10 10 10 /\
  rounding CustomFrame_default = mkRounding 10 10 10 10 /\
  shadow CustomFrame_default = mkShadow (mkVec2 0 0) 18 2 (mkColor32 0 0 0 32) /\
  (is_maximized_of ctx = false -> shadow_width_of CustomFrame_default ctx = 20).
Proof.
  split; [reflexivity|]. split; [reflexivity|]. split; [vm_compute; reflexivity|].
  split; [reflexivity|]. split; [reflexivity|]. split; [reflexivity|].
  intros Hm. unfold shadow_width_of. rewrite Hm. reflexivity.
Qed.

Lemma default_frame_values_witness :
  let ctx := example_ctx (Some false) None false false in
  is_maximized_of ctx = false /\ shadow_width_of CustomFrame_default ctx = 20.
Proof.
  intros ctx. assert (H : is_maximized_of ctx = false) by reflexivity.
  split; [exact H|].
  exact (proj2 (proj2 (proj2 (proj2 (proj2 (proj2 (default_frame_values ctx)))))) H).
Defined.

(** * Further properties of [show], the builders and the example app *)

Lemma regions_show {R} self ctx (add_content : Ui -> R) :
  regions (effects (show self ctx add_content)) =
  (if in_sizebox self ctx
   then [(view_rect_of self ctx, "custom_frame_sizebox"%string, Sense_drag)] else [])
  ++ (if in_caption self ctx
      then [(caption_rect_of self ctx, "custom_frame_caption"%string, Sense_click_and_drag)]
      else []).
Proof.
  rewrite show_effects. cbn [regions flat_map app]. fold regions. rewrite !regions_app.
  rewrite (proj1 (produce_resizing_quiet (sizebox_response_of self ctx) (pos_of ctx)
                     (sizebox_inner_of self ctx))).
  rewrite (proj1 (produce_caption_quiet (caption_response_of self ctx) (is_maximized_of ctx))).
  rewrite !app_nil_r. destruct (in_sizebox self ctx), (in_caption self ctx); reflexivity.
Qed.

(** X1: a pass registers at most one interactive region: the sizebox region
    and the caption region are never registered together. *)
Theorem at_most_one_region {R} self ctx (add_content : Ui -> R) :
  (List.length (regions (effects (show self ctx add_content))) <= 1)%nat.
Proof.
  rewrite regions_show.
  destruct (in_caption self ctx) eqn:Hc.
  - rewrite (caption_not_ring self ctx Hc). cbn. lia.
  - destruct (in_sizebox self ctx); cbn; lia.
Qed.

(** X2: the caption commands of a pass are exactly: one [StartDrag] when the
    caption region is registered and reports a drag start, and one
    [Maximized (!is_maximized)] when it is registered and reports a double
    click, maximized or not; nothing else. *)
Theorem caption_commands_exact {R} self ctx (add_content : Ui -> R) :
  let log := effects (show self ctx add_content) in
  let cr := responses ctx "custom_frame_caption" in
  start_drags log = (if in_caption self ctx && drag_started cr then [StartDrag] else []) /\
  maximize_commands log =
    (if in_caption self ctx && double_clicked cr
     then [Maximized (negb (is_maximized_of ctx))] else []).
Proof.
  cbv zeta. unfold start_drags, maximize_commands.
  rewrite commands_show. unfold sizebox_response_of, caption_response_of.
  destruct (in_sizebox self ctx) eqn:Hs, (in_caption self ctx) eqn:Hc;
    try rewrite produce_resizing_octant;
    try destruct (spec_octant (pos_of ctx) (sizebox_inner_of self ctx)) as [[icon dir]|];
    try rewrite resize_to_effects; unfold produce_caption;
    destruct (responses ctx "custom_frame_sizebox") as [d1 c1],
      (responses ctx "custom_frame_caption") as [d2 c2];
    destruct d1, c1, d2, c2; split; reflexivity.
Qed.

(** X3: a pass sets a cursor icon exactly when it registers the sizebox
    region, and then exactly one. *)
Theorem cursor_iff_sizebox {R} self ctx (add_content : Ui -> R) :
  let icons := cursor_icons (effects (show self ctx add_content)) in
  (icons <> [] <-> in_sizebox self ctx = true) /\ (List.length icons <= 1)%nat.
Proof.
  cbv zeta. rewrite show_effects. cbn [cursor_icons flat_map app]. fold cursor_icons.
  rewrite !cursor_icons_app.
  rewrite (proj1 (proj2 (proj2 (produce_caption_quiet (caption_response_of self ctx)
                                   (is_maximized_of ctx))))).
  assert (Hpre1 : forall b : bool,
    cursor_icons (if b then [Interact (view_rect_of self ctx) "custom_frame_sizebox" Sense_drag]
                  else []) = []) by (intros [|]; reflexivity).
  assert (Hpre2 : forall b : bool,
    cursor_icons (if b then [Interact (caption_rect_of self ctx) "custom_frame_caption"
                               Sense_click_and_drag] else []) = []) by (intros [|]; reflexivity).
  rewrite Hpre1, Hpre2, app_nil_r. cbn [app].
  unfold sizebox_response_of. destruct (in_sizebox self ctx) eqn:Hs.
  - rewrite produce_resizing_octant.
    destruct (spec_octant (pos_of ctx) (sizebox_inner_of self ctx)) as [[icon dir]|] eqn:Ho.
    + rewrite resize_to_effects.
      destruct (drag_started (responses ctx "custom_frame_sizebox")); cbn;
        split; [split; [reflexivity|discriminate]|lia| split; [reflexivity|discriminate]|lia].
    + exfalso. apply spec_octant_none in Ho. unfold in_sizebox in Hs. rewrite Ho in Hs.
      rewrite andb_false_r, andb_false_l in Hs. discriminate.
  - cbn. split; [split; [intros H; contradiction H; reflexivity|discriminate]|lia].
Qed.

(** The sizebox inner rectangle lies in the view rectangle when the sizebox
    sides are non-negative *)
Lemma core_in_view self ctx p :
  0 <= m_left (sizebox self) -> 0 <= m_right (sizebox self) ->
  0 <= m_top (sizebox self) -> 0 <= m_bottom (sizebox self) ->
  contains (sizebox_inner_of self ctx) p = true -> contains (view_rect_of self ctx) p = true.
Proof.
  intros Hl Hr Ht Hb. rewrite !contains_iff.
  unfold sizebox_inner_of, rect_sub_margin, from_min_max, pos_add, pos_sub,
    left_top, right_bottom; cbn [x y min max vx vy].
  intros (H1 & H2 & H3 & H4). repeat split; lra.
Qed.

(** X4: for a style with non-negative sizebox sides, a pointer outside the
    view rectangle hits no zone: the pass only shows the panel (no region, no
    cursor icon, no command) and returns the content's result. *)
Theorem outside_view_no_zone {R} self ctx (add_content : Ui -> R) p :
  0 <= m_left (sizebox self) -> 0 <= m_right (sizebox self) ->
  0 <= m_top (sizebox self) -> 0 <= m_bottom (sizebox self) ->
  interact_pos ctx = Some p ->
  contains (view_rect_of self ctx) p = false ->
  run (show self ctx add_content) =
  (add_content (mkUi (clip_rect ctx)), [ShowCentralPanel (panel_frame_of self ctx)]).
Proof.
  intros Hl Hr Ht Hb Hp Hv.
  assert (Hpos : pos_of ctx = p) by (unfold pos_of; now rewrite Hp).
  assert (Hs : in_sizebox self ctx = false) by (unfold in_sizebox; now rewrite Hpos, Hv).
  assert (Hc : in_caption self ctx = false).
  { unfold in_caption. rewrite Hpos.
    destruct (contains (caption_rect_of self ctx) p) eqn:E; [|reflexivity].
    apply caption_in_core, core_in_view in E; [congruence|assumption..]. }
  rewrite show_log. unfold sizebox_response_of, caption_response_of. rewrite Hs, Hc.
  reflexivity.
Qed.

Lemma outside_view_no_zone_witness :
  let ctx := example_ctx None (Some (mkPos2 1 1)) true true in
  0 <= m_left (sizebox CustomFrame_default) /\ 0 <= m_right (sizebox CustomFrame_default) /\
  0 <= m_top (sizebox CustomFrame_default) /\ 0 <= m_bottom (sizebox CustomFrame_default) /\
  interact_pos ctx = Some (mkPos2 1 1) /\
  contains (view_rect_of CustomFrame_default ctx) (mkPos2 1 1) = false /\
  run (show CustomFrame_default ctx (fun _ => tt)) =
  (tt, [ShowCentralPanel (panel_frame_of CustomFrame_default ctx)]).
Proof.
  intros ctx.
  assert (H1 : 0 <= m_left (sizebox CustomFrame_default)) by (vm_compute; discriminate).
  assert (H2 : 0 <= m_right (sizebox CustomFrame_default)) by (vm_compute; discriminate).
  assert (H3 : 0 <= m_top (sizebox CustomFrame_default)) by (vm_compute; discriminate).
  assert (H4 : 0 <= m_bottom (sizebox CustomFrame_default)) by (vm_compute; discriminate).
  assert (H5 : interact_pos ctx = Some (mkPos2 1 1)) by reflexivity.
  assert (H6 : contains (view_rect_of CustomFrame_default ctx) (mkPos2 1 1) = false)
    by (vm_compute; reflexivity).
  repeat (split; [assumption|]).
  exact (outside_view_no_zone CustomFrame_default ctx (fun _ => tt) _ H1 H2 H3 H4 H5 H6).
Defined.


Lemma spec_octant_icon p si icon dir :
  spec_octant p si = Some (icon, dir) -> icon = icon_of_dir dir.
Proof.
  unfold spec_octant.
  repeat match goal with |- context [Qlt_le_dec ?a ?b] => destruct (Qlt_le_dec a b) end;
    intros H; inversion H; reflexivity.
Qed.

(** X5: whenever a pass sends [BeginResize d], the one cursor icon it sets
    is the resize icon of the same direction [d]. *)
Theorem resize_command_matches_cursor {R} self ctx (add_content : Ui -> R) d :
  In (BeginResize d) (commands (effects (show self ctx add_content))) ->
  cursor_icons (effects (show self ctx add_content)) = [icon_of_dir d].
Proof.
  rewrite !show_effects. unfold sizebox_response_of, caption_response_of.
  destruct (in_sizebox self ctx), (in_caption self ctx);
    try rewrite produce_resizing_octant;
    try destruct (spec_octant (pos_of ctx) (sizebox_inner_of self ctx)) as [[icon dir]|] eqn:Ho;
    try (apply spec_octant_icon in Ho; subst icon);
    try rewrite resize_to_effects; unfold produce_caption;
    destruct (responses ctx "custom_frame_sizebox") as [d1 c1],
      (responses ctx "custom_frame_caption") as [d2 c2];
    destruct d1, c1, d2, c2; cbn; intros H;
    repeat destruct H as [H|H]; try discriminate; try contradiction;
    inversion H; subst; reflexivity.
Qed.

Lemma resize_command_matches_cursor_witness :
  let ctx := example_ctx None (Some (mkPos2 21 60)) true false in
  In (BeginResize West) (commands (effects (show CustomFrame_default ctx (fun _ => tt)))) /\
  cursor_icons (effects (show CustomFrame_default ctx (fun _ => tt))) = [icon_of_dir West].
Proof.
  intros ctx.
  assert (H : In (BeginResize West) (commands (effects (show CustomFrame_default ctx (fun _ => tt)))))
    by (vm_compute; left; reflexivity).
  split; [exact H|].
  exact (resize_command_matches_cursor CustomFrame_default ctx (fun _ => tt) West H).
Defined.

(** X6: the builder methods compose field by field: two methods on
    different fields commute, and of two methods on the same field the later
    one wins. *)
Theorem builders_compose self b1 b2 :
  (same_builder_kind b1 b2 = false ->
   apply_builder (apply_builder self b1) b2 = apply_builder (apply_builder self b2) b1) /\
  (same_builder_kind b1 b2 = true ->
   apply_builder (apply_builder self b1) b2 = apply_builder self b2).
Proof.
  destruct b1, b2; cbn; split; intros H; try discriminate; reflexivity.
Qed.

Lemma builders_compose_witness :
  same_builder_kind (BSizebox (Margin_same 8)) (BRounding Rounding_ZERO) = false /\
  apply_builder (apply_builder CustomFrame_default (BSizebox (Margin_same 8))) (BRounding Rounding_ZERO)
  = apply_builder (apply_builder CustomFrame_default (BRounding Rounding_ZERO)) (BSizebox (Margin_same 8)).
Proof.
  assert (H : same_builder_kind (BSizebox (Margin_same 8)) (BRounding Rounding_ZERO) = false)
    by reflexivity.
  split; [exact H|].
  exact (proj1 (builders_compose CustomFrame_default _ _) H).
Defined.

(** ** Intersections, point-wise *)
Lemma f32_max_le_iff a b c : f32_max a b <= c <-> a <= c /\ b <= c.
Proof.
  unfold f32_max. destruct (Qle_bool a b) eqn:E.
  - apply Qle_bool_iff in E. split; [intros H; split; lra | tauto].
  - assert (b < a) by (apply Qnot_le_lt; intro H; apply Qle_bool_iff in H; congruence).
    split; [intros H'; split; lra | tauto].
Qed.

Lemma f32_min_ge_iff a b c : c <= f32_min a b <-> c <= a /\ c <= b.
Proof.
  unfold f32_min. destruct (Qle_bool a b) eqn:E.
  - apply Qle_bool_iff in E. split; [intros H; split; lra | tauto].
  - assert (b < a) by (apply Qnot_le_lt; intro H; apply Qle_bool_iff in H; congruence).
    split; [intros H'; split; lra | tauto].
Qed.

Lemma contains_intersect r c p :
  contains (intersect r c) p = true <-> contains r p = true /\ contains c p = true.
Proof.
  rewrite !contains_iff. unfold intersect, pos_max, pos_min; cbn [x y min max].
  rewrite !f32_max_le_iff, !f32_min_ge_iff. tauto.
Qed.

(** For the [TestApp] frame and a panel no wider and no taller than
    f32::MAX, the caption rectangle covers exactly the sizebox inner
    rectangle *)
Lemma testapp_caption_covers_core ctx p :
  width (clip_rect ctx) <= f32_MAX -> height (clip_rect ctx) <= f32_MAX ->
  contains (caption_rect_of TestApp_frame ctx) p = contains (sizebox_inner_of TestApp_frame ctx) p.
Proof.
  intros Hw Hh. apply eq_true_iff_eq. unfold caption_rect_of. rewrite contains_intersect.
  split; [tauto|]. intros Hc. split; [|exact Hc].
  assert (Hsw : 0 <= shadow_width_of TestApp_frame ctx).
  { unfold shadow_width_of. destruct (is_maximized_of ctx); vm_compute; discriminate. }
  revert Hc. unfold sizebox_inner_of, view_rect_of.
  set (sw := shadow_width_of TestApp_frame ctx) in *.
  set (w := width (clip_rect ctx)) in *. set (h := height (clip_rect ctx)) in *.
  rewrite !contains_iff.
  unfold TestApp_frame, Builder.caption, CustomFrame_default, translate, rect_sub_margin,
    shrink, shrink2, from_min_size, from_min_max, pos_add, pos_sub, size, width, height,
    Vec2_splat, left_top, right_bottom, Margin_same, Pos2_ZERO;
    cbn [CF.caption CF.sizebox x y min max vx vy m_left m_right m_top m_bottom].
  intros (H1 & H2 & H3 & H4). repeat split; lra.
Qed.

(** X7: in the example app ([TestApp::new]: the default frame with the
    caption (0, 0) to (f32::MAX, f32::MAX)), the caption region's rectangle
    holds exactly the points of the sizebox inner rectangle, maximized or not,
    whenever the panel is no wider and no taller than f32::MAX. *)
Theorem testapp_caption_is_core ctx :
  width (clip_rect ctx) <= f32_MAX -> height (clip_rect ctx) <= f32_MAX ->
  forall p, contains (caption_rect_of TestApp_frame ctx) p =
            contains (sizebox_inner_of TestApp_frame ctx) p.
Proof. intros Hw Hh p. exact (testapp_caption_covers_core ctx p Hw Hh). Qed.

Lemma testapp_caption_is_core_witness :
  let ctx := example_ctx None (Some (mkPos2 100 100)) true false in
  width (clip_rect ctx) <= f32_MAX /\ height (clip_rect ctx) <= f32_MAX /\
  contains (caption_rect_of TestApp_frame ctx) (mkPos2 100 100) =
  contains (sizebox_inner_of TestApp_frame ctx) (mkPos2 100 100).
Proof.
  intros ctx.
  assert (Hw : width (clip_rect ctx) <= f32_MAX) by (vm_compute; discriminate).
  assert (Hh : height (clip_rect ctx) <= f32_MAX) by (vm_compute; discriminate).
  split; [exact Hw|]. split; [exact Hh|].
  exact (testapp_caption_is_core ctx Hw Hh (mkPos2 100 100)).
Defined.

(** X8: in the example app, with the window not maximized and the panel no
    wider and no taller than f32::MAX, every pointer position inside the view
    rectangle registers exactly one of the two regions: the sizebox region
    in the ring, the caption region everywhere else, so the whole window
    either resizes or drags. *)
Theorem testapp_view_partition ctx p :
  width (clip_rect ctx) <= f32_MAX -> height (clip_rect ctx) <= f32_MAX ->
  is_maximized_of ctx = false ->
  interact_pos ctx = Some p ->
  contains (view_rect_of TestApp_frame ctx) p = true ->
  in_sizebox TestApp_frame ctx = negb (in_caption TestApp_frame ctx).
Proof.
  intros Hw Hh Hm Hp Hv.
  assert (Hpos : pos_of ctx = p) by (unfold pos_of; now rewrite Hp).
  unfold in_sizebox, in_caption. rewrite Hpos, Hv, Hm, testapp_caption_covers_core by assumption.
  cbn. now rewrite andb_true_r.
Qed.

Lemma testapp_view_partition_witness :
  let ctx := example_ctx None (Some (mkPos2 100 100)) true false in
  width (clip_rect ctx) <= f32_MAX /\ height (clip_rect ctx) <= f32_MAX /\
  is_maximized_of ctx = false /\ interact_pos ctx = Some (mkPos2 100 100) /\
  contains (view_rect_of TestApp_frame ctx) (mkPos2 100 100) = true /\
  in_sizebox TestApp_frame ctx = negb (in_caption TestApp_frame ctx).
Proof.
  intros ctx.
  assert (H1 : width (clip_rect ctx) <= f32_MAX) by (vm_compute; discriminate).
  assert (H2 : height (clip_rect ctx) <= f32_MAX) by (vm_compute; discriminate).
  assert (H3 : is_maximized_of ctx = false) by reflexivity.
  assert (H4 : interact_pos ctx = Some (mkPos2 100 100)) by reflexivity.
  assert (H5 : contains (view_rect_of TestApp_frame ctx) (mkPos2 100 100) = true)
    by (vm_compute; reflexivity).
  repeat (split; [assumption|]).
  exact (testapp_view_partition ctx _ H1 H2 H3 H4 H5).
Defined.
